(** * os-metrics-to-influxdb.py: the send loop, the request headers, the
      line-protocol lines and the organisation lookup.

    Python values are embedded as follows.
    - [int] is [Z] (unbounded); [str] is [string] and [len] is
      [String.length], one character per code point; [bool] is [bool].
    - a [dict] with string keys is a [gmap string _].
    - [requests.get] and [requests.post] are functions supplied by the
      environment: the script never branches on what [post] answers, and
      [get_org_id] branches only on the status code and on the decoded body.
      An exception raised inside them (no route, time-out) ends the script
      at that call and is outside this development.
    - code that may raise or call [sys.exit] returns an [outcome]. *)

From Stdlib Require Import ZArith Lia.
From stdpp Require Import base option list strings gmap pretty.

Local Open Scope Z_scope.

(** The one-character string written ["\n"] in Python. *)
Definition newline : string := String (Ascii.ascii_of_nat 10) "".

(** ** Command line (lines 26-82, 113) *)

(** [argparse.Namespace] as returned by [parse_args].  [influxdb_token] is
    [None] when neither the option nor [INFLUXDB_TOKEN] is given;
    [request_timeout] holds the value of [int(args.request_timeout)]. *)
Record Namespace : Type := {
  verbose : bool;
  influxdb_url : string;
  influxdb_org : string;
  influxdb_bucket : string;
  influxdb_token : option string;
  influxdb_rate_limit : Z;
  influxdb_gzip : bool;
  request_timeout : Z
}.

(** What an f-string prints for an optional [str]. *)
Definition fmt_opt (o : option string) : string := default "None" o.

(** ** HTTP messages *)

Record Request : Type := {
  req_url : string;
  req_timeout : Z;
  req_headers : gmap string string;
  req_data : string
}.

Record Response : Type := {
  status_code : Z;
  content : string
}.

(** ** Lines 131-137: URL and headers of the write request *)

Definition url (args : Namespace) : string :=
  influxdb_url args +:+ "/api/v2/write?org=" +:+ influxdb_org args
    +:+ "&bucket=" +:+ influxdb_bucket args +:+ "&precision=s".

(** Lines 134-136. *)
Definition base_headers (args : Namespace) : gmap string string :=
  {[ "Authorization" := "Token " +:+ fmt_opt (influxdb_token args);
     "Content-type" := "text/plain; charset=utf-8";
     "Accept" := "application/json" ]}.

(** Line 137. *)
Definition request_headers (args : Namespace) : gmap string string :=
  if influxdb_gzip args
  then <["Content-Encoding" := "gzip"]> (base_headers args)
  else base_headers args.

(** The arguments of [requests.post] on lines 147-151, for a given [data]. *)
Definition write_request (args : Namespace) (data : string) : Request :=
  {| req_url := url args;
     req_timeout := request_timeout args;
     req_headers := request_headers args;
     req_data := data |}.

(** ** Lines 138-154: the send loop *)

(** The variables the loop updates, and what it has done to the outside
    world so far: the requests handed to [requests.post], oldest first, and
    the pairs written by [print]. *)
Record LoopState : Type := {
  to_send : string;
  counter : Z;
  lines_to_send : Z;
  posted : list Request;
  printed : list (Z * string)
}.

Section SendLoop.

Variable requests_post : Request -> Response.
Variable args : Namespace.
(** The right-hand side of the comparison on line 146; the script passes
    [influxdb_rate_limit args * 1024], see [send_metrics]. *)
Variable limit_bytes : Z.

(** Lines 138-141. *)
Definition loop_init (metric_line_proto : list string) : LoopState :=
  {| to_send := "";
     counter := 0;
     lines_to_send := Z.of_nat (length metric_line_proto);
     posted := [];
     printed := [] |}.

(** Lines 143-145. *)
Definition accumulate (st : LoopState) (line : string) : LoopState :=
  {| to_send := to_send st +:+ line +:+ newline;
     counter := counter st + Z.of_nat (String.length line);
     lines_to_send := lines_to_send st - 1;
     posted := posted st;
     printed := printed st |}.

(** The condition of line 146. *)
Definition must_flush (st : LoopState) : bool :=
  (counter st >=? limit_bytes) || (lines_to_send st =? 0).

(** Lines 147-154. *)
Definition flush (st : LoopState) : LoopState :=
  let req := write_request args (to_send st) in
  let response := requests_post req in
  {| to_send := "";
     counter := 0;
     lines_to_send := lines_to_send st;
     posted := posted st ++ [req];
     printed := printed st ++ [(status_code response, content response)] |}.

(** One iteration, lines 143-154. *)
Definition loop_body (st : LoopState) (line : string) : LoopState :=
  let st' := accumulate st line in
  if must_flush st' then flush st' else st'.

(** Lines 142-154 from an arbitrary state. *)
Fixpoint loop_from (st : LoopState) (metric_line_proto : list string)
  : LoopState :=
  match metric_line_proto with
  | [] => st
  | line :: rest => loop_from (loop_body st line) rest
  end.

(** Lines 138-154. *)
Definition send_loop (metric_line_proto : list string) : LoopState :=
  loop_from (loop_init metric_line_proto) metric_line_proto.

(** *** Batches as lists of lines

    [to_send] only keeps the text.  To speak of the lines of a batch,
    [batches_from] replays the loop with the same [accumulate], [must_flush]
    and [flush] and records which lines went into [to_send] between two
    resets: [staged] is the list of lines appended since the last reset, and
    a batch is closed where the loop posts. *)
Fixpoint batches_from (st : LoopState) (staged : list string)
    (metric_line_proto : list string) : list (list string) :=
  match metric_line_proto with
  | [] => []
  | line :: rest =>
      let st' := accumulate st line in
      if must_flush st'
      then (staged ++ [line]) :: batches_from (flush st') [] rest
      else batches_from st' (staged ++ [line]) rest
  end.

Definition batches (metric_line_proto : list string) : list (list string) :=
  batches_from (loop_init metric_line_proto) [] metric_line_proto.

End SendLoop.

(** The loop as the script runs it. *)
Definition send_metrics (requests_post : Request -> Response)
    (args : Namespace) (metric_line_proto : list string) : LoopState :=
  send_loop requests_post args (influxdb_rate_limit args * 1024)
    metric_line_proto.

(** The text a list of lines leaves in [to_send]: every line followed by a
    newline. *)
Fixpoint payload (ls : list string) : string :=
  match ls with
  | [] => ""
  | l :: ls' => l +:+ newline +:+ payload ls'
  end.

(** The sum of [len(line)] over a list of lines. *)
Fixpoint total_len (ls : list string) : Z :=
  match ls with
  | [] => 0
  | l :: ls' => Z.of_nat (String.length l) + total_len ls'
  end.

(** The loop variables agree with the lines staged since the last reset and
    with the lines still to come. *)
Definition in_step (st : LoopState) (staged rest : list string) : Prop :=
  to_send st = payload staged /\
  counter st = total_len staged /\
  lines_to_send st = Z.of_nat (length rest).

(** A text whose last character is a newline. *)
Definition ends_with_newline (s : string) : Prop :=
  exists s', s = s' +:+ newline.

(** ** Lines 120-128: the two line-protocol lines *)

Section Metrics.

(** Python's [float], and the text an f-string prints for one. *)
Variable Float : Type.
Variable float_str : Float -> string.

Definition metric_line_proto (cpu_util memory_util : Float) : list string :=
  [ "cpu_utilisation,host=ansible percent_usage=" +:+ float_str cpu_util;
    "memory_utilisation,host=ansible percent_usage="
      +:+ float_str memory_util ].

End Metrics.

(** A non-negative reading with one decimal digit, kept as a number of
    tenths, and its decimal text: [tenths_str 425 = "42.5"].  It stands for
    [Float] and [float_str] on concrete readings. *)
Definition tenths_str (t : Z) : string :=
  pretty (t `div` 10) +:+ "." +:+ pretty (t `mod` 10).

(** ** Lines 85-110: [get_org_id] *)

(** What [Response.json()] returns.  Numbers are restricted to integers. *)
#[local] Set Warnings "-register-all".
Inductive json : Type :=
  | JNull
  | JBool (b : bool)
  | JNum (n : Z)
  | JStr (s : string)
  | JArr (l : list json)
  | JObj (m : gmap string json).

Inductive exn : Type :=
  | JSONDecodeError
  | KeyError
  | IndexError
  | TypeError.

(** How a piece of code ends: with a value, with an exception, or in
    [sys.exit(code)]. *)
Inductive outcome (A : Type) : Type :=
  | Return (a : A)
  | Raise (e : exn)
  | SysExit (code : option Z).
Arguments Return {A} a.
Arguments Raise {A} e.
Arguments SysExit {A} code.

#[global] Instance outcome_ret : MRet outcome := @Return.

#[global] Instance outcome_bind : MBind outcome := fun A B k o =>
  match o with
  | Return a => k a
  | Raise e => Raise e
  | SysExit c => SysExit c
  end.

(** The exit status of the interpreter when the script ends this way at top
    level: [sys.exit()] and [sys.exit(None)] give 0, an exception that is
    not caught gives 1. *)
Definition exit_status {A : Type} (o : outcome A) : option Z :=
  match o with
  | Return _ => None
  | Raise _ => Some 1
  | SysExit None => Some 0
  | SysExit (Some n) => Some n
  end.

(** The answer of [requests.get]: the status code and what [.json()] gives,
    [None] when the body is not JSON and [.json()] raises. *)
Record GetResponse : Type := {
  get_status_code : Z;
  get_json : option json
}.

Definition response_json (r : GetResponse) : outcome json :=
  match get_json r with
  | Some j => Return j
  | None => Raise JSONDecodeError
  end.

(** [v[key]] for a [str] key. *)
Definition getitem_key (v : json) (key : string) : outcome json :=
  match v with
  | JObj m => match m !! key with
              | Some x => Return x
              | None => Raise KeyError
              end
  | _ => Raise TypeError
  end.

(** [v[0]]. *)
Definition getitem_0 (v : json) : outcome json :=
  match v with
  | JArr (x :: _) => Return x
  | JArr [] => Raise IndexError
  | JStr (String c _) => Return (JStr (String c ""))
  | JStr "" => Raise IndexError
  | JObj _ => Raise KeyError
  | _ => Raise TypeError
  end.

(** [bool(v)]. *)
Definition truthy (v : json) : bool :=
  match v with
  | JNull => false
  | JBool b => b
  | JNum n => negb (n =? 0)
  | JStr s => negb (String.eqb s "")
  | JArr l => match l with [] => false | _ => true end
  | JObj m => negb (bool_decide (m = ∅))
  end.

(** Line 87. *)
Definition org_url (org_name : string) : string :=
  "http://localhost:8086/api/v2/orgs?org=" +:+ org_name.

(** Lines 91-94. *)
Definition org_headers (master_token : string) : gmap string string :=
  {[ "Authorization" := "Token " +:+ master_token;
     "Content-type" := "application/json" ]}.

Section OrgLookup.

Variable requests_get : string -> Z -> gmap string string -> GetResponse.
(** [str(v)] for a value that is not a [str]. *)
Variable str_other : json -> string.

Definition py_str (v : json) : string :=
  match v with
  | JStr s => s
  | _ => str_other v
  end.

(** The messages passed to [logging] do not reach the result; building
    them calls [org_response.json()], which may raise (lines 97 and 101). *)
Definition get_org_id (org_name master_token : string) (request_timeout : Z)
  : outcome string :=
  let org_response :=
    requests_get (org_url org_name) request_timeout
      (org_headers master_token) in
  response_json org_response ;;
  if negb (get_status_code org_response =? 200) then
    response_json org_response ;;
    SysExit None
  else
    j ← response_json org_response;
    orgs ← getitem_key j "orgs";
    if negb (truthy orgs) then
      SysExit None
    else
      j' ← response_json org_response;
      orgs' ← getitem_key j' "orgs";
      org ← getitem_0 orgs';
      id ← getitem_key org "id";
      Return (py_str id).

End OrgLookup.

(** ** Compression

    A gzip stream starts with the two bytes 31 and 139 (RFC 1952, ID1 and
    ID2); a text that does not is not the output of a gzip compressor. *)
Definition has_gzip_magic (data : string) : bool :=
  match data with
  | String c1 (String c2 _) =>
      (Ascii.nat_of_ascii c1 =? 31)%nat && (Ascii.nat_of_ascii c2 =? 139)%nat
  | _ => false
  end.

(** ** Lines 15-23: [env_default] *)

(** The values [env_default] handles: [None], an [int] default, or the
    [str] read from the environment. *)
Inductive pyval : Type :=
  | PyNone
  | PyInt (n : Z)
  | PyStr (s : string).

(** [bool(v)]. *)
Definition py_truthy (v : pyval) : bool :=
  match v with
  | PyNone => false
  | PyInt n => negb (n =? 0)
  | PyStr s => negb (String.eqb s "")
  end.

(** [os.environ.get(env_var)], the environment being a map from names to
    texts. *)
Definition environ_get (environ : gmap string string) (env_var : string)
  : pyval :=
  match environ !! env_var with
  | Some s => PyStr s
  | None => PyNone
  end.

Definition env_default (environ : gmap string string) (env_var : string)
    (default_val : pyval) : gmap string pyval :=
  if py_truthy (environ_get environ env_var)
  then {[ "default" := environ_get environ env_var ]}
  else {[ "default" := default_val ]}.

(** ** Lines 120-154 as a whole: the readings, their lines, the loop *)

Definition main (requests_post : Request -> Response) (args : Namespace)
    (Float : Type) (float_str : Float -> string)
    (cpu_util memory_util : Float) : LoopState :=
  send_metrics requests_post args
    (metric_line_proto Float float_str cpu_util memory_util).

(** What [print] writes for a request: the status and the content of the
    answer to it (line 152). *)
Definition printed_for (requests_post : Request -> Response) (r : Request)
  : Z * string :=
  (status_code (requests_post r), content (requests_post r)).

(** The loop variables and the requests posted evolve the same way whatever
    the server answers. *)
Definition same_requests (st1 st2 : LoopState) : Prop :=
  to_send st1 = to_send st2 /\
  counter st1 = counter st2 /\
  lines_to_send st1 = lines_to_send st2 /\
  posted st1 = posted st2.

(** ** Sample inputs *)

(** An answer of the write endpoint: 204, empty body. *)
Definition no_content (_ : Request) : Response :=
  {| status_code := 204; content := "" |}.

Definition sample_args (rate_limit : Z) (gzip : bool) : Namespace :=
  {| verbose := false;
     influxdb_url := "http://localhost:8086";
     influxdb_org := "home";
     influxdb_bucket := "metrics";
     influxdb_token := Some "secret";
     influxdb_rate_limit := rate_limit;
     influxdb_gzip := gzip;
     request_timeout := 5 |}.


(** An answer of the organisation endpoint that ignores the request. *)
Definition answer (status : Z) (body : option json)
  : string -> Z -> gmap string string -> GetResponse :=
  fun _ _ _ => {| get_status_code := status; get_json := body |}.

(** * Properties *)

(** ** Strings *)

Lemma string_app_cons (c : Ascii.ascii) (s1 s2 : string) :
  String c s1 +:+ s2 = String c (s1 +:+ s2).
Proof. reflexivity. Qed.

Lemma string_app_assoc (s1 s2 s3 : string) :
  (s1 +:+ s2) +:+ s3 = s1 +:+ (s2 +:+ s3).
Proof.
  induction s1 as [|c s1 IH]; [reflexivity |].
  now rewrite !string_app_cons, IH.
Qed.

Lemma string_app_nil_r (s : string) : s +:+ "" = s.
Proof.
  induction s as [|c s IH]; [reflexivity |].
  now rewrite string_app_cons, IH.
Qed.

Lemma string_length_app (s1 s2 : string) :
  String.length (s1 +:+ s2) = (String.length s1 + String.length s2)%nat.
Proof.
  induction s1 as [|c s1 IH]; [reflexivity |].
  rewrite string_app_cons. simpl. now rewrite IH.
Qed.

Lemma payload_app (ls1 ls2 : list string) :
  payload (ls1 ++ ls2) = payload ls1 +:+ payload ls2.
Proof.
  induction ls1 as [|l ls1 IH]; cbn [payload app]; [reflexivity |].
  now rewrite IH, !string_app_assoc.
Qed.

Lemma payload_snoc (ls : list string) (l : string) :
  payload (ls ++ [l]) = payload ls +:+ l +:+ newline.
Proof. rewrite payload_app. cbn [payload]. now rewrite string_app_nil_r. Qed.

Lemma total_len_app (ls1 ls2 : list string) :
  total_len (ls1 ++ ls2) = total_len ls1 + total_len ls2.
Proof.
  induction ls1 as [|l ls1 IH]; simpl; [reflexivity | rewrite IH; lia].
Qed.

Lemma total_len_snoc (ls : list string) (l : string) :
  total_len (ls ++ [l]) = total_len ls + Z.of_nat (String.length l).
Proof. rewrite total_len_app. simpl. lia. Qed.

Lemma payload_ends_with_newline (ls : list string) :
  ls ≠ [] -> ends_with_newline (payload ls).
Proof.
  destruct (decide (ls = [])) as [->|Hne]; [congruence | intros _].
  destruct (exists_last Hne) as (ls' & l & ->).
  exists (payload ls' +:+ l).
  now rewrite payload_snoc, string_app_assoc.
Qed.

(** ** The send loop *)

Section SendLoopFacts.

Variable requests_post : Request -> Response.
Variable args : Namespace.
Variable limit_bytes : Z.

Lemma in_step_init (lines : list string) :
  in_step (loop_init lines) [] lines.
Proof. repeat split. Qed.

Lemma in_step_accumulate st staged line rest :
  in_step st staged (line :: rest) ->
  in_step (accumulate st line) (staged ++ [line]) rest.
Proof.
  intros (Hs & Hc & Hn). unfold in_step; simpl.
  rewrite payload_snoc, total_len_snoc, Hs, Hc, Hn.
  repeat split. rewrite length_cons. lia.
Qed.

Lemma in_step_flush st rest :
  lines_to_send st = Z.of_nat (length rest) ->
  in_step (flush requests_post args st) [] rest.
Proof. intros Hn. repeat split. exact Hn. Qed.

Lemma must_flush_spec st :
  must_flush limit_bytes st = true <->
  limit_bytes <= counter st \/ lines_to_send st = 0.
Proof.
  unfold must_flush.
  rewrite orb_true_iff, Z.geb_le, Z.eqb_eq. reflexivity.
Qed.

(** The requests posted are those of the batches closed, in order. *)
Lemma posted_loop_from (lines : list string) : forall st staged,
  to_send st = payload staged ->
  posted (loop_from requests_post args limit_bytes st lines) =
  posted st ++
  map (fun b => write_request args (payload b))
      (batches_from requests_post args limit_bytes st staged lines).
Proof.
  induction lines as [|line rest IH]; intros st staged Hs; simpl.
  - now rewrite app_nil_r.
  - unfold loop_body.
    destruct (must_flush limit_bytes (accumulate st line)) eqn:Hf.
    + rewrite (IH _ []) by reflexivity. simpl.
      rewrite <- app_assoc. simpl.
      rewrite payload_snoc, Hs. reflexivity.
    + rewrite (IH _ (staged ++ [line])); [reflexivity |].
      simpl. now rewrite payload_snoc, Hs.
Qed.

(** With lines still to come, the batches closed from here on hold the
    staged lines followed by those lines. *)
Lemma concat_batches_from (lines : list string) : forall st staged,
  lines_to_send st = Z.of_nat (length lines) ->
  lines ≠ [] ->
  concat (batches_from requests_post args limit_bytes st staged lines)
    = staged ++ lines.
Proof.
  induction lines as [|line rest IH]; intros st staged Hn Hne;
    [congruence |]. simpl.
  assert (Hn' : lines_to_send (accumulate st line) = Z.of_nat (length rest))
    by (simpl; rewrite Hn, length_cons; lia).
  destruct (decide (rest = [])) as [->|Hrest].
  - assert (Hf : must_flush limit_bytes (accumulate st line) = true)
      by (apply must_flush_spec; right; exact Hn').
    rewrite Hf. simpl. now rewrite app_nil_r.
  - destruct (must_flush limit_bytes (accumulate st line)) eqn:Hf.
    + rewrite concat_cons, IH by done. now rewrite <- app_assoc.
    + rewrite IH by done. now rewrite <- app_assoc.
Qed.

(** The last line of a closed batch is still the last line of the input
    when one more line is put in front of the input. *)
Lemma last_line_cons (b rest : list string) (line : string) :
  b ≠ [] -> last b = last rest -> last b = last (line :: rest).
Proof.
  intros Hne Hl. rewrite last_cons, <- Hl.
  destruct (last b) eqn:Hb; [reflexivity |].
  now apply last_None in Hb.
Qed.

(** Every batch closed from a state that agrees with the staged lines has a
    line in it, and either its lines add up to the limit or it is the last
    batch and ends with the last line of the input. *)
Lemma batches_from_closed (lines : list string) :
  forall st staged (pre : list (list string)) (b : list string) post,
  in_step st staged lines ->
  batches_from requests_post args limit_bytes st staged lines
    = pre ++ b :: post ->
  b ≠ [] /\
  (limit_bytes <= total_len b \/ (post = [] /\ last b = last lines)).
Proof.
  induction lines as [|line rest IH]; intros st staged pre b post Hst Hb.
  { destruct pre; discriminate Hb. }
  pose proof (in_step_accumulate _ _ _ _ Hst) as Hst'.
  simpl in Hb.
  destruct (must_flush limit_bytes (accumulate st line)) eqn:Hf.
  - destruct pre as [|p pre']; simpl in Hb; injection Hb as Hb Hpost.
    + subst b. split; [destruct staged; discriminate |].
      destruct Hst' as (_ & Hc & Hn).
      apply must_flush_spec in Hf as [Hlim|Hz].
      * left. now rewrite <- Hc.
      * right. rewrite Hn in Hz.
        assert (rest = []) as ->
          by (destruct rest; [done | simpl in Hz; lia]).
        simpl in Hpost. subst post. now rewrite last_snoc.
    + destruct Hst' as (_ & _ & Hn).
      destruct (IH _ _ _ _ _ (in_step_flush _ _ Hn) Hpost)
        as [Hne [Hlim | [Hp Hl]]]; (split; [exact Hne |]);
        [now left | right; split; [exact Hp | now apply last_line_cons]].
  - destruct (IH _ _ _ _ _ Hst' Hb) as [Hne [Hlim | [Hp Hl]]];
      (split; [exact Hne |]);
      [now left | right; split; [exact Hp | now apply last_line_cons]].
Qed.

End SendLoopFacts.

(** What the loop posts, from its first line on: one request per closed
    batch, with the batch's lines as body. *)
Lemma posted_send_loop requests_post args (L : Z) (lines : list string) :
  posted (send_loop requests_post args L lines) =
  map (fun b => write_request args (payload b))
      (batches requests_post args L lines).
Proof.
  unfold send_loop, batches.
  now rewrite (posted_loop_from _ _ _ lines _ []).
Qed.

Lemma concat_batches requests_post args (L : Z) (lines : list string) :
  concat (batches requests_post args L lines) = lines.
Proof.
  destruct (decide (lines = [])) as [->|Hne]; [reflexivity |].
  unfold batches. now rewrite concat_batches_from.
Qed.

(** The text of the lines of several batches is the text of the batches put
    end to end. *)
Lemma payload_concat (bs : list (list string)) :
  payload (concat bs) = foldr String.append "" (map payload bs).
Proof.
  induction bs as [|b bs IH]; [reflexivity |].
  rewrite concat_cons, payload_app, IH. reflexivity.
Qed.

(** ** The claims on the send loop *)

(** C1.  Whatever the lines and the limit [L], a batch the loop closes holds
    at least one line, and it is closed either with lines whose lengths add
    up to [L] or more, or as the last batch, ending with the last line of
    the input; its lines are the body of the request posted at its place. *)
Theorem batch_closed_at_limit_or_final_line
    (requests_post : Request -> Response) (args : Namespace) (L : Z)
    (lines : list string)
    (pre : list (list string)) (b : list string) (post : list (list string)) :
  batches requests_post args L lines = pre ++ b :: post ->
  b ≠ [] /\
  (L <= total_len b \/ (post = [] /\ last b = last lines)) /\
  posted (send_loop requests_post args L lines) !! length pre
    = Some (write_request args (payload b)).
Proof.
  intros Hb.
  destruct (batches_from_closed requests_post args L lines _ _ pre b post
              (in_step_init lines) Hb) as [Hne Hwhy].
  repeat split; [exact Hne | exact Hwhy |].
  rewrite posted_send_loop, Hb, list_lookup_fmap, list_lookup_middle;
    reflexivity.
Qed.

Lemma batch_closed_at_limit_or_final_line_witness :
  batches no_content (sample_args 100 false) 4 ["abcd"; "ef"; "g"]
    = [] ++ ["abcd"] :: [["ef"; "g"]] /\
  (["abcd"] ≠ [] /\
   (4 <= total_len ["abcd"] \/
    ([["ef"; "g"]] = [] /\ last ["abcd"] = last ["abcd"; "ef"; "g"])) /\
   posted (send_loop no_content (sample_args 100 false) 4
             ["abcd"; "ef"; "g"]) !! length (@nil (list string))
     = Some (write_request (sample_args 100 false) (payload ["abcd"]))).
Proof.
  split; [reflexivity |].
  apply (batch_closed_at_limit_or_final_line no_content
           (sample_args 100 false) 4 ["abcd"; "ef"; "g"] [] ["abcd"]
           [["ef"; "g"]]).
  reflexivity.
Defined.

(** C2.  The lines of the batches, batch after batch, are the input lines:
    none is lost, repeated or moved.  The bodies posted are those of these
    batches, in the same order, so that the bodies put end to end are the
    input lines, each followed by a newline. *)
Theorem batches_concat_is_input
    (requests_post : Request -> Response) (args : Namespace) (L : Z)
    (lines : list string) :
  concat (batches requests_post args L lines) = lines /\
  map req_data (posted (send_loop requests_post args L lines))
    = map payload (batches requests_post args L lines) /\
  foldr String.append ""
    (map req_data (posted (send_loop requests_post args L lines)))
    = payload lines.
Proof.
  assert (Hbodies :
            map req_data (posted (send_loop requests_post args L lines))
            = map payload (batches requests_post args L lines))
    by (rewrite posted_send_loop, map_map; reflexivity).
  repeat split; [apply concat_batches | exact Hbodies |].
  now rewrite Hbodies, <- payload_concat, concat_batches.
Qed.

(** C10.  The requests posted and the batches closed go by pairs, in
    order: the body of a request is the text of its own batch, which has a
    line in it, each line of the batch followed by a newline, so that the
    body ends with a newline; and the batches, one after the other, hold
    the input lines. *)
Theorem posted_body_ends_with_newline
    (requests_post : Request -> Response) (args : Namespace) (L : Z)
    (lines : list string) :
  Forall2 (fun r b => b ≠ [] /\
                      req_data r = payload b /\
                      ends_with_newline (req_data r))
          (posted (send_loop requests_post args L lines))
          (batches requests_post args L lines) /\
  concat (batches requests_post args L lines) = lines.
Proof.
  split; [| apply concat_batches].
  rewrite posted_send_loop. apply Forall2_fmap_l.
  apply Forall_Forall2_diag, Forall_forall. intros b Hin. simpl.
  apply list_elem_of_split in Hin as (pre & post & Hb).
  destruct (batches_from_closed requests_post args L lines _ _ pre b post
              (in_step_init lines) Hb) as [Hne _].
  repeat split; [exact Hne | now apply payload_ends_with_newline].
Qed.

(** The loop on a single line: the last-line rule closes the batch. *)
Lemma batches_single requests_post args (L : Z) (l : string) :
  batches requests_post args L [l] = [[l]].
Proof.
  unfold batches. cbn [batches_from loop_init length].
  replace (must_flush L (accumulate (loop_init [l]) l)) with true;
    [reflexivity |].
  symmetry. apply must_flush_spec. right. reflexivity.
Qed.



(** C8.  A single line shorter than the limit goes out as one batch holding
    that line alone: one request, whose body is the line and a newline. *)
Theorem single_small_line_one_batch
    (requests_post : Request -> Response) (args : Namespace) (L : Z)
    (l : string) :
  Z.of_nat (String.length l) < L ->
  batches requests_post args L [l] = [[l]] /\
  posted (send_loop requests_post args L [l])
    = [write_request args (l +:+ newline)].
Proof.
  intros _. split; [apply batches_single |].
  rewrite posted_send_loop, batches_single. simpl.
  now rewrite string_app_nil_r.
Qed.

Lemma single_small_line_one_batch_witness :
  Z.of_nat (String.length "cpu_utilisation,host=ansible percent_usage=42.5")
    < 100 * 1024 /\
  batches no_content (sample_args 100 false) (100 * 1024)
    ["cpu_utilisation,host=ansible percent_usage=42.5"]
    = [["cpu_utilisation,host=ansible percent_usage=42.5"]] /\
  posted (send_loop no_content (sample_args 100 false) (100 * 1024)
            ["cpu_utilisation,host=ansible percent_usage=42.5"])
    = [write_request (sample_args 100 false)
         ("cpu_utilisation,host=ansible percent_usage=42.5" +:+ newline)].
Proof.
  assert (Hlt : Z.of_nat
                  (String.length
                     "cpu_utilisation,host=ansible percent_usage=42.5")
                < 100 * 1024) by (vm_compute; reflexivity).
  split; [exact Hlt |].
  exact (single_small_line_one_batch no_content (sample_args 100 false)
           (100 * 1024) _ Hlt).
Defined.

(** C7.  In one iteration of the script's loop the counter grows by the
    length of the line, without its newline, and the buffer grows by the
    line and a newline; the request goes out exactly when the counter has
    reached [influxdb_rate_limit * 1024] or no line is left, with the buffer
    as body, and counter and buffer start again from nothing. *)
Theorem counter_buffer_threshold
    (requests_post : Request -> Response) (args : Namespace)
    (st : LoopState) (line : string) (lines : list string) :
  let limit := influxdb_rate_limit args * 1024 in
  let st1 := accumulate st line in
  let st2 := loop_body requests_post args limit st line in
  let sent := flush requests_post args st1 in
  send_metrics requests_post args lines
    = fold_left (loop_body requests_post args limit) lines (loop_init lines) /\
  counter st1 = counter st + Z.of_nat (String.length line) /\
  to_send st1 = to_send st +:+ line +:+ newline /\
  String.length (to_send st1)
    = (String.length (to_send st) + String.length line + 1)%nat /\
  lines_to_send st1 = lines_to_send st - 1 /\
  st2 = (if bool_decide (limit <= counter st1 \/ lines_to_send st1 = 0)
         then sent else st1) /\
  posted sent = posted st ++ [write_request args (to_send st1)] /\
  counter sent = 0 /\
  to_send sent = "".
Proof.
  intros limit st1 st2 sent. repeat split.
  - unfold send_metrics, send_loop. fold limit.
    generalize (loop_init lines).
    induction lines as [|x xs IH]; intros s; simpl; [reflexivity | apply IH].
  - unfold st1. simpl. rewrite !string_length_app. simpl. lia.
  - unfold st2, loop_body. fold st1. fold sent.
    case_bool_decide as Hd.
    + apply must_flush_spec in Hd. now rewrite Hd.
    + destruct (must_flush limit st1) eqn:Hf; [| reflexivity].
      apply must_flush_spec in Hf. contradiction.
Qed.

(** ** The line-protocol lines *)

(** C5.  For a CPU reading that an f-string prints as [42.5], the first
    line of [metric_line_proto] is exactly
    [cpu_utilisation,host=ansible percent_usage=42.5], with nothing after
    it. *)
Theorem cpu_line_exact
    (Float : Type) (float_str : Float -> string)
    (cpu_util memory_util : Float) :
  float_str cpu_util = "42.5" ->
  metric_line_proto Float float_str cpu_util memory_util !! 0%nat
    = Some "cpu_utilisation,host=ansible percent_usage=42.5".
Proof. intros H. unfold metric_line_proto. simpl. now rewrite H. Qed.

Lemma cpu_line_exact_witness :
  tenths_str 425 = "42.5" /\
  metric_line_proto Z tenths_str 425 173 !! 0%nat
    = Some "cpu_utilisation,host=ansible percent_usage=42.5".
Proof.
  assert (H : tenths_str 425 = "42.5") by (vm_compute; reflexivity).
  split; [exact H |].
  exact (cpu_line_exact Z tenths_str 425 173 H).
Defined.

(** ** The headers and the body *)

Lemma base_headers_no_encoding (args : Namespace) :
  base_headers args !! "Content-Encoding" = None.
Proof.
  unfold base_headers.
  rewrite !lookup_insert_ne by done. now apply lookup_singleton_ne.
Qed.

Lemma request_headers_encoding (args : Namespace) :
  request_headers args !! "Content-Encoding"
    = if influxdb_gzip args then Some "gzip" else None.
Proof.
  unfold request_headers. destruct (influxdb_gzip args).
  - apply lookup_insert_eq.
  - apply base_headers_no_encoding.
Qed.

(** C3.  What the script does with [--influxdb_gzip]: the header
    [Content-Encoding: gzip] is on every request exactly when the flag is
    set, and the body is, with or without the flag, the lines of the batch
    as plain text.  On the readings 42.5 and 17.3 with the flag set, the
    single request has the header, and its body is the two lines, which
    start with [c] and not with the two bytes every gzip stream starts
    with. *)
Theorem gzip_header_on_plain_body :
  (forall requests_post args lines,
     Forall (fun r => req_headers r !! "Content-Encoding"
                        = (if influxdb_gzip args then Some "gzip" else None) /\
                      exists b, req_data r = payload b)
            (posted (send_metrics requests_post args lines))) /\
  let lines := metric_line_proto Z tenths_str 425 173 in
  exists r,
    posted (send_metrics no_content (sample_args 100 true) lines) = [r] /\
    req_headers r !! "Content-Encoding" = Some "gzip" /\
    req_data r
      = "cpu_utilisation,host=ansible percent_usage=42.5" +:+ newline +:+
        "memory_utilisation,host=ansible percent_usage=17.3" +:+ newline /\
    has_gzip_magic (req_data r) = false.
Proof.
  split.
  - intros requests_post args lines. unfold send_metrics.
    rewrite posted_send_loop, Forall_map.
    apply Forall_forall. intros b _. simpl.
    split; [apply request_headers_encoding | now exists b].
  - eexists. split; [vm_compute; reflexivity |].
    repeat split; vm_compute; reflexivity.
Qed.

(** ** The organisation lookup *)

(** C9.  On an answer with status 200 whose ["orgs"] is a list that starts
    with an object having an ["id"], [get_org_id] returns [str] of that id,
    the id itself when it is a string; what follows in the list plays no
    part. *)
Theorem get_org_id_first_org
    (requests_get : string -> Z -> gmap string string -> GetResponse)
    (str_other : json -> string)
    (org_name master_token : string) (request_timeout : Z)
    (body : gmap string json) (org : gmap string json) (others : list json)
    (id : json) :
  let org_response :=
    requests_get (org_url org_name) request_timeout
      (org_headers master_token) in
  get_status_code org_response = 200 ->
  get_json org_response = Some (JObj body) ->
  body !! "orgs" = Some (JArr (JObj org :: others)) ->
  org !! "id" = Some id ->
  get_org_id requests_get str_other org_name master_token request_timeout
    = Return (py_str str_other id).
Proof.
  intros org_response Hst Hj Horgs Hid.
  unfold get_org_id. fold org_response.
  unfold response_json. rewrite Hj, Hst. simpl.
  rewrite Horgs. simpl. rewrite Hid. reflexivity.
Qed.

Lemma get_org_id_first_org_witness :
  get_org_id
    (answer 200
       (Some (JObj {[ "orgs" :=
                        JArr [ JObj {[ "id" := JStr "0a1b2c3d4e5f6071";
                                       "name" := JStr "home" ]};
                               JObj {[ "id" := JStr "ffffffffffffffff";
                                       "name" := JStr "home" ]} ] ]})))
    (fun _ => "") "home" "secret" 5
  = Return "0a1b2c3d4e5f6071".
Proof.
  apply (get_org_id_first_org _ (fun _ => "") "home" "secret" 5
           {[ "orgs" :=
                JArr [ JObj {[ "id" := JStr "0a1b2c3d4e5f6071";
                               "name" := JStr "home" ]};
                       JObj {[ "id" := JStr "ffffffffffffffff";
                               "name" := JStr "home" ]} ] ]}
           {[ "id" := JStr "0a1b2c3d4e5f6071"; "name" := JStr "home" ]}
           [ JObj {[ "id" := JStr "ffffffffffffffff";
                     "name" := JStr "home" ]} ]
           (JStr "0a1b2c3d4e5f6071")); reflexivity.
Defined.

(** The answers on which the lookup fails: a status other than 200, or an
    empty list under ["orgs"]. *)
Lemma get_org_id_on_failure
    (requests_get : string -> Z -> gmap string string -> GetResponse)
    (str_other : json -> string)
    (org_name master_token : string) (request_timeout : Z) :
  let org_response :=
    requests_get (org_url org_name) request_timeout
      (org_headers master_token) in
  get_status_code org_response ≠ 200 \/
  (exists body, get_json org_response = Some (JObj body) /\
                body !! "orgs" = Some (JArr [])) ->
  get_org_id requests_get str_other org_name master_token request_timeout
    = match get_json org_response with
      | Some _ => SysExit None
      | None => Raise JSONDecodeError
      end.
Proof.
  intros org_response H.
  unfold get_org_id. fold org_response. unfold response_json.
  destruct (get_json org_response) as [j|] eqn:Hj; [| reflexivity]. simpl.
  destruct (get_status_code org_response =? 200) eqn:Hst; [| reflexivity].
  apply Z.eqb_eq in Hst.
  destruct H as [H | (body & Hb & Horgs)]; [contradiction |].
  injection Hb as ->. simpl. rewrite Horgs. reflexivity.
Qed.

(** C4, as the code has it.  On an answer with a status other than 200, or
    with an empty list under ["orgs"], [get_org_id] returns no identifier
    and the script ends there: in [sys.exit()] without an argument, that is
    with exit status 0, when the body of the answer is JSON, and in the
    exception of [.json()], with exit status 1, when it is not. *)
Theorem get_org_id_failure_exits
    (requests_get : string -> Z -> gmap string string -> GetResponse)
    (str_other : json -> string)
    (org_name master_token : string) (request_timeout : Z) :
  let org_response :=
    requests_get (org_url org_name) request_timeout
      (org_headers master_token) in
  let result :=
    get_org_id requests_get str_other org_name master_token request_timeout in
  get_status_code org_response ≠ 200 \/
  (exists body, get_json org_response = Some (JObj body) /\
                body !! "orgs" = Some (JArr [])) ->
  result = match get_json org_response with
           | Some _ => SysExit None
           | None => Raise JSONDecodeError
           end /\
  exit_status result = match get_json org_response with
                       | Some _ => Some 0
                       | None => Some 1
                       end /\
  ~ exists id, result = Return id.
Proof.
  intros org_response result H.
  pose proof (get_org_id_on_failure requests_get str_other org_name
                master_token request_timeout H) as E.
  fold org_response in E. fold result in E.
  rewrite E.
  destruct (get_json org_response); repeat split;
    intros [id Hid]; discriminate Hid.
Qed.

Lemma get_org_id_failure_exits_witness :
  get_status_code (answer 404 (Some (JObj ∅)) (org_url "home") 5
                     (org_headers "secret")) ≠ 200 /\
  get_org_id (answer 404 (Some (JObj ∅))) (fun _ => "") "home" "secret" 5
    = SysExit None.
Proof.
  assert (H : get_status_code (answer 404 (Some (JObj ∅)) (org_url "home") 5
                                 (org_headers "secret")) ≠ 200)
    by (simpl; lia).
  split; [exact H |].
  exact (proj1 (get_org_id_failure_exits (answer 404 (Some (JObj ∅)))
                  (fun _ => "") "home" "secret" 5 (or_introl H))).
Defined.

(** C4, as the claim has it, fails on the exit status: on a 404 with a JSON
    body, and on a 200 with an empty list under ["orgs"], the script ends
    with exit status 0. *)
Lemma get_org_id_exit_status_zero :
  let on_404 :=
    get_org_id (answer 404 (Some (JObj ∅))) (fun _ => "")
      "home" "secret" 5 in
  let on_empty :=
    get_org_id (answer 200 (Some (JObj {[ "orgs" := JArr [] ]})))
      (fun _ => "") "home" "secret" 5 in
  (exit_status on_404 = Some 0 /\
   ~ exists code, exit_status on_404 = Some code /\ code ≠ 0) /\
  (exit_status on_empty = Some 0 /\
   ~ exists code, exit_status on_empty = Some code /\ code ≠ 0).
Proof.
  split; (split; [vm_compute; reflexivity |]);
    intros (code & Hc & Hnz); vm_compute in Hc; congruence.
Qed.

(** * Further properties of the send loop *)

Lemma total_len_nonneg (ls : list string) : 0 <= total_len ls.
Proof. induction ls as [|l ls IH]; simpl; lia. Qed.

Lemma payload_length (ls : list string) :
  Z.of_nat (String.length (payload ls)) = total_len ls + Z.of_nat (length ls).
Proof.
  induction ls as [|l ls IH]; [reflexivity |].
  cbn [payload total_len length].
  rewrite !string_length_app, !Nat2Z.inj_add, IH. simpl. lia.
Qed.

Section SendLoopMore.

Variable requests_post : Request -> Response.
Variable args : Namespace.
Variable limit_bytes : Z.

Lemma lines_to_send_loop_body st line :
  lines_to_send (loop_body requests_post args limit_bytes st line)
    = lines_to_send st - 1.
Proof.
  unfold loop_body.
  destruct (must_flush limit_bytes (accumulate st line)); reflexivity.
Qed.

(** From a state that counts the lines to come, the loop ends with nothing
    staged. *)
Lemma loop_from_drained (lines : list string) : forall st,
  lines_to_send st = Z.of_nat (length lines) ->
  lines ≠ [] ->
  let final := loop_from requests_post args limit_bytes st lines in
  to_send final = "" /\ counter final = 0 /\ lines_to_send final = 0.
Proof.
  induction lines as [|line rest IH]; intros st Hn Hne; [congruence |].
  simpl. destruct (decide (rest = [])) as [->|Hrest].
  - simpl. unfold loop_body.
    replace (must_flush limit_bytes (accumulate st line)) with true.
    + simpl. rewrite Hn. simpl. repeat split; lia.
    + symmetry. apply must_flush_spec. right. simpl. rewrite Hn. simpl. lia.
  - apply IH; [| exact Hrest].
    rewrite lines_to_send_loop_body, Hn, length_cons. lia.
Qed.

(** One pair is printed per request, from the answer to it. *)
Lemma printed_loop_from (lines : list string) : forall st,
  printed st = map (printed_for requests_post) (posted st) ->
  let final := loop_from requests_post args limit_bytes st lines in
  printed final = map (printed_for requests_post) (posted final).
Proof.
  induction lines as [|line rest IH]; intros st Hp; [exact Hp |].
  simpl. apply IH. unfold loop_body.
  destruct (must_flush limit_bytes (accumulate st line)); simpl.
  - now rewrite map_app, Hp.
  - exact Hp.
Qed.

(** With a limit that is not positive every line closes its batch. *)
Lemma batches_from_nonpositive (lines : list string) : forall st,
  limit_bytes <= 0 ->
  0 <= counter st ->
  batches_from requests_post args limit_bytes st [] lines
    = map (fun l => [l]) lines.
Proof.
  induction lines as [|line rest IH]; intros st HL Hc; [reflexivity |].
  simpl.
  replace (must_flush limit_bytes (accumulate st line)) with true.
  - f_equal. apply IH; [exact HL | simpl; lia].
  - symmetry. apply must_flush_spec. left. simpl. lia.
Qed.

(** Lines that stay below the limit, followed by one more line, close as
    one batch together with what is staged. *)
Lemma batches_from_below (init : list string) (l : string) :
  forall st staged,
  counter st = total_len staged ->
  lines_to_send st = Z.of_nat (length (init ++ [l])) ->
  total_len staged + total_len init < limit_bytes ->
  batches_from requests_post args limit_bytes st staged (init ++ [l])
    = [staged ++ init ++ [l]].
Proof.
  induction init as [|x init IH]; intros st staged Hc Hn Hlt.
  - simpl.
    replace (must_flush limit_bytes (accumulate st l)) with true;
      [reflexivity |].
    symmetry. apply must_flush_spec. right. simpl. rewrite Hn. simpl. lia.
  - simpl in Hlt. pose proof (total_len_nonneg init) as Hpos.
    cbn [app batches_from].
    replace (must_flush limit_bytes (accumulate st x)) with false.
    + rewrite IH.
      * now rewrite <- app_assoc.
      * simpl. rewrite total_len_snoc. lia.
      * simpl. rewrite Hn. cbn [app]. rewrite length_cons. lia.
      * rewrite total_len_snoc. lia.
    + symmetry. apply not_true_is_false. intros Hf.
      apply must_flush_spec in Hf as [Hf|Hf]; simpl in Hf.
      * lia.
      * rewrite Hn in Hf. cbn [app] in Hf.
        rewrite length_cons, length_app in Hf. simpl in Hf. lia.
Qed.

(** A batch is closed as soon as the limit is reached: without its last
    line, a closed batch is below the limit. *)
Lemma batches_from_minimal (lines : list string) :
  forall st staged (pre : list (list string)) (b' : list string)
         (l : string) post,
  counter st = total_len staged ->
  (staged ≠ [] -> total_len staged < limit_bytes) ->
  batches_from requests_post args limit_bytes st staged lines
    = pre ++ (b' ++ [l]) :: post ->
  b' ≠ [] ->
  total_len b' < limit_bytes.
Proof.
  induction lines as [|line rest IH];
    intros st staged pre b' l post Hc Hinv Hb Hne.
  { destruct pre; discriminate Hb. }
  simpl in Hb.
  destruct (must_flush limit_bytes (accumulate st line)) eqn:Hf.
  - destruct pre as [|p pre']; simpl in Hb; injection Hb as Hb Hpost.
    + apply app_inj_tail in Hb as [-> _]. now apply Hinv.
    + apply (IH (flush requests_post args (accumulate st line)) []
               pre' b' l post); [reflexivity | done | exact Hpost | exact Hne].
  - apply (IH (accumulate st line) (staged ++ [line]) pre b' l post);
      [| | exact Hb | exact Hne].
    + simpl. rewrite total_len_snoc. lia.
    + intros _. rewrite total_len_snoc, <- Hc.
      apply not_true_iff_false in Hf. rewrite must_flush_spec in Hf.
      simpl in Hf. lia.
Qed.

End SendLoopMore.


Lemma same_requests_loop_body post1 post2 args (L : Z) st1 st2 line :
  same_requests st1 st2 ->
  same_requests (loop_body post1 args L st1 line)
                (loop_body post2 args L st2 line).
Proof.
  intros (Hs & Hc & Hn & Hp). unfold loop_body.
  assert (Hf : must_flush L (accumulate st1 line)
               = must_flush L (accumulate st2 line))
    by (unfold must_flush; simpl; now rewrite Hc, Hn).
  rewrite Hf.
  destruct (must_flush L (accumulate st2 line)); unfold same_requests; simpl;
    rewrite ?Hs, ?Hc, ?Hn, ?Hp; repeat split.
Qed.

Lemma same_requests_loop_from post1 post2 args (L : Z) (lines : list string) :
  forall st1 st2,
  same_requests st1 st2 ->
  same_requests (loop_from post1 args L st1 lines)
                (loop_from post2 args L st2 lines).
Proof.
  induction lines as [|line rest IH]; intros st1 st2 H; [exact H |].
  simpl. apply IH. now apply same_requests_loop_body.
Qed.

Lemma batches_nonempty requests_post args (L : Z) (lines : list string) :
  Forall (fun b => b ≠ []) (batches requests_post args L lines).
Proof.
  apply Forall_forall. intros b Hin.
  apply list_elem_of_split in Hin as (pre & post & Hb).
  now destruct (batches_from_closed requests_post args L lines _ _ pre b post
                  (in_step_init lines) Hb).
Qed.

Lemma length_concat_nonempty {A : Type} (bs : list (list A)) :
  Forall (fun b => b ≠ []) bs -> (length bs <= length (concat bs))%nat.
Proof.
  induction 1 as [|b bs Hb _ IH]; simpl; [lia |].
  rewrite length_app. destruct b; [congruence | simpl; lia].
Qed.

(** X1.  When the loop is over nothing is left staged: the buffer is empty,
    the counter is 0 and no line is counted as still to come. *)
Theorem loop_ends_drained
    (requests_post : Request -> Response) (args : Namespace) (L : Z)
    (lines : list string) :
  let final := send_loop requests_post args L lines in
  to_send final = "" /\ counter final = 0 /\ lines_to_send final = 0.
Proof.
  destruct (decide (lines = [])) as [->|Hne]; [repeat split |].
  now apply loop_from_drained.
Qed.

(** X2.  The loop prints one pair per request, in the order of the
    requests: the status and the content of the answer to each. *)
Theorem printed_matches_posted
    (requests_post : Request -> Response) (args : Namespace) (L : Z)
    (lines : list string) :
  let final := send_loop requests_post args L lines in
  printed final = map (printed_for requests_post) (posted final).
Proof.
  intros final. unfold final, send_loop.
  apply printed_loop_from. reflexivity.
Qed.

(** X3.  What is posted does not depend on what the server answers: two
    runs on the same lines post the same requests whatever the answers. *)
Theorem posted_independent_of_answers
    (post1 post2 : Request -> Response) (args : Namespace) (L : Z)
    (lines : list string) :
  posted (send_loop post1 args L lines)
    = posted (send_loop post2 args L lines).
Proof.
  unfold send_loop.
  now destruct (same_requests_loop_from post1 post2 args L lines
                  (loop_init lines) (loop_init lines))
    as (_ & _ & _ & Hp); [repeat split |].
Qed.

(** X4.  The loop posts at most one request per line, and none at all only
    when there is no line. *)
Theorem request_count_bounds
    (requests_post : Request -> Response) (args : Namespace) (L : Z)
    (lines : list string) :
  (length (posted (send_loop requests_post args L lines)) <= length lines)%nat
  /\ (posted (send_loop requests_post args L lines) = [] <-> lines = []).
Proof.
  rewrite posted_send_loop, length_map.
  pose proof (concat_batches requests_post args L lines) as Hc.
  pose proof (batches_nonempty requests_post args L lines) as Hne.
  split.
  - rewrite <- Hc at 2. now apply length_concat_nonempty.
  - split.
    + intros Hm. apply map_eq_nil in Hm. now rewrite Hm in Hc.
    + intros ->. reflexivity.
Qed.

(** X5.  With a limit of 0 or less every line goes out alone: one request
    per line, in order, with the line and a newline as body. *)
Theorem nonpositive_limit_one_request_per_line
    (requests_post : Request -> Response) (args : Namespace) (L : Z)
    (lines : list string) :
  L <= 0 ->
  posted (send_loop requests_post args L lines)
    = map (fun l => write_request args (l +:+ newline)) lines.
Proof.
  intros HL. rewrite posted_send_loop. unfold batches.
  rewrite batches_from_nonpositive by (simpl; lia).
  rewrite map_map. apply map_ext. intros l. simpl.
  now rewrite string_app_nil_r.
Qed.

Lemma nonpositive_limit_one_request_per_line_witness :
  0 <= 0 /\
  posted (send_loop no_content (sample_args 0 false) 0 ["ab"; "c"])
    = [write_request (sample_args 0 false) ("ab" +:+ newline);
       write_request (sample_args 0 false) ("c" +:+ newline)].
Proof.
  split; [lia |].
  apply (nonpositive_limit_one_request_per_line no_content
           (sample_args 0 false) 0 ["ab"; "c"]). lia.
Defined.

(** X6.  When the lines before the last one add up to less than the limit,
    all the lines go out in a single request. *)
Theorem below_limit_single_request
    (requests_post : Request -> Response) (args : Namespace) (L : Z)
    (init : list string) (l : string) :
  total_len init < L ->
  posted (send_loop requests_post args L (init ++ [l]))
    = [write_request args (payload (init ++ [l]))].
Proof.
  intros Hlt. rewrite posted_send_loop. unfold batches.
  rewrite (batches_from_below requests_post args L init l _ []);
    [reflexivity | reflexivity | reflexivity | simpl; lia].
Qed.

Lemma below_limit_single_request_witness :
  total_len ["ab"; "cd"] < 5 /\
  posted (send_loop no_content (sample_args 1 false) 5
            (["ab"; "cd"] ++ ["efghijkl"]))
    = [write_request (sample_args 1 false)
         (payload (["ab"; "cd"] ++ ["efghijkl"]))].
Proof.
  assert (H : total_len ["ab"; "cd"] < 5) by (simpl; lia).
  split; [exact H |].
  exact (below_limit_single_request no_content (sample_args 1 false) 5
           ["ab"; "cd"] "efghijkl" H).
Defined.

(** X7.  A batch with several lines is closed as soon as the limit is
    reached: without its last line it is below the limit, so that it
    exceeds the limit by less than the length of its last line. *)
Theorem closed_batch_minimal
    (requests_post : Request -> Response) (args : Namespace) (L : Z)
    (lines : list string)
    (pre : list (list string)) (b' : list string) (l : string)
    (post : list (list string)) :
  batches requests_post args L lines = pre ++ (b' ++ [l]) :: post ->
  b' ≠ [] ->
  total_len b' < L /\
  total_len (b' ++ [l]) < L + Z.of_nat (String.length l).
Proof.
  intros Hb Hne.
  assert (H : total_len b' < L).
  { apply (batches_from_minimal requests_post args L lines
             (loop_init lines) [] pre b' l post); [reflexivity | done
             | exact Hb | exact Hne]. }
  split; [exact H | rewrite total_len_snoc; lia].
Qed.

Lemma closed_batch_minimal_witness :
  batches no_content (sample_args 1 false) 5 ["ab"; "cd"; "efg"; "h"]
    = [] ++ (["ab"; "cd"] ++ ["efg"]) :: [["h"]] /\
  total_len ["ab"; "cd"] < 5 /\
  total_len (["ab"; "cd"] ++ ["efg"]) < 5 + Z.of_nat (String.length "efg").
Proof.
  split; [reflexivity |].
  apply (closed_batch_minimal no_content (sample_args 1 false) 5
           ["ab"; "cd"; "efg"; "h"] [] ["ab"; "cd"] "efg" [["h"]]);
    [reflexivity | discriminate].
Defined.

(** X8.  The body of a request is longer than what the counter has counted
    for it: by one character per line of the batch, the newlines. *)
Theorem posted_body_length
    (requests_post : Request -> Response) (args : Namespace) (L : Z)
    (lines : list string)
    (pre : list (list string)) (b : list string) (post : list (list string)) :
  batches requests_post args L lines = pre ++ b :: post ->
  exists r,
    posted (send_loop requests_post args L lines) !! length pre = Some r /\
    Z.of_nat (String.length (req_data r))
      = total_len b + Z.of_nat (length b).
Proof.
  intros Hb. exists (write_request args (payload b)). split.
  - rewrite posted_send_loop, Hb, list_lookup_fmap, list_lookup_middle;
      reflexivity.
  - apply payload_length.
Qed.

Lemma posted_body_length_witness :
  batches no_content (sample_args 1 false) 5 ["ab"; "cd"; "efg"; "h"]
    = [] ++ ["ab"; "cd"; "efg"] :: [["h"]] /\
  exists r,
    posted (send_loop no_content (sample_args 1 false) 5
              ["ab"; "cd"; "efg"; "h"]) !! length (@nil (list string))
      = Some r /\
    Z.of_nat (String.length (req_data r))
      = total_len ["ab"; "cd"; "efg"] + Z.of_nat (length ["ab"; "cd"; "efg"]).
Proof.
  split; [reflexivity |].
  apply (posted_body_length no_content (sample_args 1 false) 5
           ["ab"; "cd"; "efg"; "h"] [] ["ab"; "cd"; "efg"] [["h"]]).
  reflexivity.
Defined.

(** * The script as a whole *)

(** X9.  The script posts its two lines in one request, unless the length
    of the CPU line, 43 characters and the text of the reading, reaches
    [influxdb_rate_limit * 1024]: then it posts each line in a request of
    its own. *)
Theorem main_requests
    (requests_post : Request -> Response) (args : Namespace)
    (Float : Type) (float_str : Float -> string)
    (cpu_util memory_util : Float) :
  let cpu_line :=
    "cpu_utilisation,host=ansible percent_usage=" +:+ float_str cpu_util in
  let memory_line :=
    "memory_utilisation,host=ansible percent_usage="
      +:+ float_str memory_util in
  posted (main requests_post args Float float_str cpu_util memory_util)
    = if bool_decide (influxdb_rate_limit args * 1024
                      <= 43 + Z.of_nat (String.length (float_str cpu_util)))
      then [write_request args (cpu_line +:+ newline);
            write_request args (memory_line +:+ newline)]
      else [write_request args
              (cpu_line +:+ newline +:+ memory_line +:+ newline)].
Proof.
  intros cpu_line memory_line.
  unfold main, send_metrics, metric_line_proto.
  fold cpu_line. fold memory_line.
  assert (Hlen : total_len [cpu_line]
                 = 43 + Z.of_nat (String.length (float_str cpu_util))).
  { unfold cpu_line. simpl. rewrite string_length_app. simpl. lia. }
  case_bool_decide as Hd.
  - rewrite posted_send_loop. unfold batches. cbn [batches_from].
    replace (must_flush _ (accumulate (loop_init [cpu_line; memory_line])
                             cpu_line)) with true.
    + replace (must_flush _ (accumulate _ memory_line)) with true.
      * simpl. now rewrite !string_app_nil_r.
      * symmetry. apply must_flush_spec. right. reflexivity.
    + symmetry. apply must_flush_spec. left. simpl in *. lia.
  - rewrite posted_send_loop. unfold batches.
    change [cpu_line; memory_line] with ([cpu_line] ++ [memory_line]).
    rewrite (batches_from_below requests_post args _ [cpu_line]
               memory_line _ []);
      [| reflexivity | reflexivity | simpl in *; lia].
    simpl. now rewrite string_app_nil_r.
Qed.

(** * The headers *)

(** X10.  Every request carries [Authorization], [Content-type] and
    [Accept], and [Content-Encoding] with [--influxdb_gzip] only; without a
    token the [Authorization] header is the text [Token None]. *)
Theorem request_headers_keys (args : Namespace) :
  dom (request_headers args)
    = {[ "Authorization"; "Content-type"; "Accept" ]}
      ∪ (if influxdb_gzip args then {[ "Content-Encoding" ]} else ∅) /\
  request_headers args !! "Authorization"
    = Some ("Token " +:+ match influxdb_token args with
                         | Some token => token
                         | None => "None"
                         end).
Proof.
  unfold request_headers, base_headers, fmt_opt. split.
  - destruct (influxdb_gzip args);
      rewrite ?dom_insert_L, dom_singleton_L; set_solver.
  - destruct (influxdb_gzip args), (influxdb_token args); reflexivity.
Qed.

(** * Further properties of the organisation lookup *)

(** Case analysis along the path [get_org_id] takes through an answer. *)
Ltac org_cases H :=
  repeat match type of H with
    | context [match ?x with _ => _ end] =>
        let E := fresh "E" in destruct x eqn:E; simpl in H; try discriminate H
    | context [if ?b then _ else _] =>
        let E := fresh "E" in destruct b eqn:E; simpl in H; try discriminate H
    end.

(** X11.  [get_org_id] returns an identifier only on an answer with status
    200 whose ["orgs"] is a list that starts with an object having an
    ["id"], and the identifier is [str] of that id. *)
Theorem get_org_id_returns_only_first_id
    (requests_get : string -> Z -> gmap string string -> GetResponse)
    (str_other : json -> string)
    (org_name master_token : string) (request_timeout : Z) (s : string) :
  let org_response :=
    requests_get (org_url org_name) request_timeout
      (org_headers master_token) in
  get_org_id requests_get str_other org_name master_token request_timeout
    = Return s ->
  get_status_code org_response = 200 /\
  exists body org others id,
    get_json org_response = Some (JObj body) /\
    body !! "orgs" = Some (JArr (JObj org :: others)) /\
    org !! "id" = Some id /\
    s = py_str str_other id.
Proof.
  intros org_response H.
  unfold get_org_id in H. fold org_response in H.
  unfold response_json, getitem_key, getitem_0 in H. simpl in H.
  org_cases H.
  injection H as <-.
  match goal with
  | E : negb _ = false |- _ => apply negb_false_iff, Z.eqb_eq in E
  end.
  split; [assumption |].
  do 4 eexists. repeat split; [eassumption ..].
Qed.

Lemma get_org_id_returns_only_first_id_witness :
  exists body org others id,
    get_json (answer 200
                (Some (JObj {[ "orgs" := JArr [ JObj {[ "id" := JNum 7 ]} ] ]}))
                (org_url "home") 5 (org_headers "secret"))
      = Some (JObj body) /\
    body !! "orgs" = Some (JArr (JObj org :: others)) /\
    org !! "id" = Some id /\
    "seven" = py_str (fun _ => "seven") id.
Proof.
  apply (get_org_id_returns_only_first_id
           (answer 200
              (Some (JObj {[ "orgs" := JArr [ JObj {[ "id" := JNum 7 ]} ] ]})))
           (fun _ => "seven") "home" "secret" 5 "seven").
  reflexivity.
Defined.

(** X12.  [get_org_id] ends in [sys.exit] only without an argument, only on
    an answer whose body is JSON, and only when the status is not 200 or
    the value under ["orgs"] is false as a condition. *)
Theorem get_org_id_exits_only_when
    (requests_get : string -> Z -> gmap string string -> GetResponse)
    (str_other : json -> string)
    (org_name master_token : string) (request_timeout : Z)
    (code : option Z) :
  let org_response :=
    requests_get (org_url org_name) request_timeout
      (org_headers master_token) in
  get_org_id requests_get str_other org_name master_token request_timeout
    = SysExit code ->
  code = None /\
  is_Some (get_json org_response) /\
  (get_status_code org_response ≠ 200 \/
   exists body orgs,
     get_json org_response = Some (JObj body) /\
     body !! "orgs" = Some orgs /\
     truthy orgs = false).
Proof.
  intros org_response H.
  unfold get_org_id in H. fold org_response in H.
  unfold response_json, getitem_key, getitem_0 in H. simpl in H.
  destruct (get_json org_response) as [j|] eqn:Hj; simpl in H;
    [| discriminate H].
  destruct (get_status_code org_response =? 200) eqn:Hst; simpl in H.
  - destruct j; simpl in H; try discriminate H.
    destruct (m !! "orgs") as [orgs|] eqn:Horgs; simpl in H;
      [| discriminate H].
    destruct (truthy orgs) eqn:Ht; simpl in H.
    + org_cases H.
    + injection H as <-. repeat split; [eauto |].
      right. exists m, orgs. repeat split; assumption.
  - injection H as <-. apply Z.eqb_neq in Hst.
    repeat split; [eauto | now left].
Qed.

Lemma get_org_id_exits_only_when_witness :
  None = @None Z /\
  is_Some (get_json (answer 200 (Some (JObj {[ "orgs" := JNull ]}))
                       (org_url "home") 5 (org_headers "secret"))) /\
  (get_status_code (answer 200 (Some (JObj {[ "orgs" := JNull ]}))
                      (org_url "home") 5 (org_headers "secret")) ≠ 200 \/
   exists body orgs,
     get_json (answer 200 (Some (JObj {[ "orgs" := JNull ]}))
                 (org_url "home") 5 (org_headers "secret"))
       = Some (JObj body) /\
     body !! "orgs" = Some orgs /\
     truthy orgs = false).
Proof.
  apply (get_org_id_exits_only_when
           (answer 200 (Some (JObj {[ "orgs" := JNull ]})))
           (fun _ => "") "home" "secret" 5 None).
  reflexivity.
Defined.

(** X13.  On a status 200, any value under ["orgs"] that is false as a
    condition ends the script in [sys.exit()]: not only the empty list but
    also [null], [false], [0], the empty text and the empty object. *)
Theorem get_org_id_falsy_orgs_exits
    (requests_get : string -> Z -> gmap string string -> GetResponse)
    (str_other : json -> string)
    (org_name master_token : string) (request_timeout : Z)
    (body : gmap string json) (orgs : json) :
  let org_response :=
    requests_get (org_url org_name) request_timeout
      (org_headers master_token) in
  get_status_code org_response = 200 ->
  get_json org_response = Some (JObj body) ->
  body !! "orgs" = Some orgs ->
  orgs ∈ [JArr []; JNull; JBool false; JNum 0; JStr ""; JObj ∅] ->
  get_org_id requests_get str_other org_name master_token request_timeout
    = SysExit None.
Proof.
  intros org_response Hst Hj Horgs Hin.
  unfold get_org_id. fold org_response.
  unfold response_json. rewrite Hj, Hst. simpl. rewrite Horgs. simpl.
  replace (truthy orgs) with false; [reflexivity |].
  repeat (apply elem_of_cons in Hin as [-> | Hin]; [reflexivity |]).
  now apply elem_of_nil in Hin.
Qed.

Lemma get_org_id_falsy_orgs_exits_witness :
  get_org_id (answer 200 (Some (JObj {[ "orgs" := JNull ]})))
    (fun _ => "") "home" "secret" 5
  = SysExit None.
Proof.
  apply (get_org_id_falsy_orgs_exits
           (answer 200 (Some (JObj {[ "orgs" := JNull ]})))
           (fun _ => "") "home" "secret" 5 {[ "orgs" := JNull ]} JNull);
    [reflexivity | reflexivity | reflexivity |].
  apply elem_of_cons. right. apply elem_of_cons. left. reflexivity.
Defined.

(** X14.  On a status 200 with a JSON object as body, a missing ["orgs"],
    or a first organisation that is an object without ["id"], makes
    [get_org_id] raise [KeyError]: the script ends with a traceback and not
    through the logged error and [sys.exit]. *)
Theorem get_org_id_missing_key
    (requests_get : string -> Z -> gmap string string -> GetResponse)
    (str_other : json -> string)
    (org_name master_token : string) (request_timeout : Z)
    (body : gmap string json) :
  let org_response :=
    requests_get (org_url org_name) request_timeout
      (org_headers master_token) in
  get_status_code org_response = 200 ->
  get_json org_response = Some (JObj body) ->
  body !! "orgs" = None \/
  (exists org others,
     body !! "orgs" = Some (JArr (JObj org :: others)) /\
     org !! "id" = None) ->
  get_org_id requests_get str_other org_name master_token request_timeout
    = Raise KeyError.
Proof.
  intros org_response Hst Hj H.
  unfold get_org_id. fold org_response.
  unfold response_json. rewrite Hj, Hst. simpl.
  destruct H as [Horgs | (org & others & Horgs & Hid)];
    rewrite Horgs; simpl; [reflexivity |].
  now rewrite Hid.
Qed.

Lemma get_org_id_missing_key_witness :
  get_org_id
    (answer 200
       (Some (JObj {[ "orgs" := JArr [ JObj {[ "name" := JStr "home" ]} ] ]})))
    (fun _ => "") "home" "secret" 5
  = Raise KeyError /\
  get_org_id (answer 200 (Some (JObj {[ "code" := JStr "unauthorized" ]})))
    (fun _ => "") "home" "secret" 5
  = Raise KeyError.
Proof.
  split.
  - apply (get_org_id_missing_key _ (fun _ => "") "home" "secret" 5
             {[ "orgs" := JArr [ JObj {[ "name" := JStr "home" ]} ] ]});
      [reflexivity | reflexivity |].
    right. exists {[ "name" := JStr "home" ]}, []. split; reflexivity.
  - apply (get_org_id_missing_key _ (fun _ => "") "home" "secret" 5
             {[ "code" := JStr "unauthorized" ]});
      [reflexivity | reflexivity |].
    left. reflexivity.
Defined.

(** X15.  [get_org_id] raises the error of [.json()] exactly when the body
    of the answer is not JSON, whatever the status: the body is decoded for
    the debug message before the status is looked at. *)
Theorem get_org_id_decode_error
    (requests_get : string -> Z -> gmap string string -> GetResponse)
    (str_other : json -> string)
    (org_name master_token : string) (request_timeout : Z) :
  let org_response :=
    requests_get (org_url org_name) request_timeout
      (org_headers master_token) in
  get_org_id requests_get str_other org_name master_token request_timeout
    = Raise JSONDecodeError
  <-> get_json org_response = None.
Proof.
  intros org_response.
  unfold get_org_id. fold org_response.
  unfold response_json, getitem_key, getitem_0.
  destruct (get_json org_response) as [j|] eqn:Hj; simpl;
    [| split; reflexivity].
  split; [| discriminate].
  intros H. exfalso. org_cases H.
Qed.

(** * [env_default] *)

(** X16.  A variable set to the empty text counts as not set: in both
    cases the entry is the default handed over, [None] when there is
    none. *)
Theorem env_default_empty_is_unset
    (environ : gmap string string) (env_var : string) (default_val : pyval) :
  env_default (<[env_var := ""]> environ) env_var default_val
    = {[ "default" := default_val ]} /\
  env_default (delete env_var environ) env_var default_val
    = {[ "default" := default_val ]}.
Proof.
  unfold env_default, environ_get.
  now rewrite lookup_insert_eq, lookup_delete_eq.
Qed.

(** X17.  A variable set to a text that is not empty wins over any default,
    and the entry holds the text as it is, also where the default is a
    number. *)
Theorem env_default_set_wins
    (environ : gmap string string) (env_var s : string)
    (default_val : pyval) :
  environ !! env_var = Some s ->
  s ≠ "" ->
  env_default environ env_var default_val = {[ "default" := PyStr s ]}.
Proof.
  intros He Hs. unfold env_default, environ_get. rewrite He. simpl.
  destruct (String.eqb_spec s ""); [contradiction | reflexivity].
Qed.

Lemma env_default_set_wins_witness :
  ({[ "REQUEST_TIMEOUT" := "30" ]} : gmap string string) !! "REQUEST_TIMEOUT"
    = Some "30" /\
  "30" ≠ "" /\
  env_default {[ "REQUEST_TIMEOUT" := "30" ]} "REQUEST_TIMEOUT" (PyInt 5)
    = {[ "default" := PyStr "30" ]}.
Proof.
  assert (H1 : ({[ "REQUEST_TIMEOUT" := "30" ]} : gmap string string)
               !! "REQUEST_TIMEOUT" = Some "30") by reflexivity.
  assert (H2 : "30" ≠ "") by discriminate.
  split; [exact H1 |]. split; [exact H2 |].
  exact (env_default_set_wins _ "REQUEST_TIMEOUT" "30" (PyInt 5) H1 H2).
Defined.
